(** * Gwers: exception classes and stack tracing

    A shallow embedding of [trace.h], [trace.cpp], [exception.h] and
    [exception.cpp] of the Gwers library, followed by the properties of the
    trace stack, of the exception object and of [Exception::base_catch].

    Conventions of the embedding.
    - The thread-local statics [Trace::_stack] and [Trace::_lock] are the two
      fields of one record; every function of the library is a function on
      that record, so a thread is one value of it.
    - C++ [int] is [Z]: no arithmetic is done on line numbers, and the
      counters of the test runner are incremented only, which is undefined
      at [INT_MAX]; [std::string] is [string], [std::vector<string>] is [list string] with
      [emplace_back] appending at the tail.
    - [std::vector::pop_back] on an empty vector has undefined behaviour:
      the destructor of [Trace] returns an [option], [None] standing for it.
    - Code that may throw is a function from the world to a [Result]: it
      returns, or it leaves with an exception object in flight, or it is
      undefined. *)

From Stdlib Require Import List String ZArith Bool Arith Lia.
Import ListNotations.
Open Scope string_scope.
Open Scope list_scope.

(** ** trace.h / trace.cpp *)

Module Trace.

(** [thread_local static list _stack; thread_local static bool _lock;] *)
Record t : Type := mk { _stack : list string; _lock : bool }.

(** [_stack {}], [_lock {false}]: the value a thread starts with. *)
Definition initial : t := mk [] false.

(** [Trace::Trace(const string& fname) { _stack.emplace_back(fname); }] *)
Definition ctor (fname : string) (r : t) : t :=
  mk (_stack r ++ [fname]) (_lock r).

(** [std::vector::pop_back]: defined on a non-empty vector only. *)
Definition pop_back (v : list string) : option (list string) :=
  match v with
  | [] => None
  | _ :: _ => Some (removelast v)
  end.

(** [Trace::~Trace() { if (!_lock) { _stack.pop_back(); } }] *)
Definition dtor (r : t) : option t :=
  if negb (_lock r) then
    match pop_back (_stack r) with
    | Some v => Some (mk v (_lock r))
    | None => None
    end
  else Some r.

(** [void Trace::lock() { _lock = true; }] *)
Definition lock (r : t) : t := mk (_stack r) true.

(** [void Trace::flush() { _stack.clear(); _lock = false; }] *)
Definition flush (r : t) : t := mk [] false.

(** The strings met when iterating from [begin()] to [end()]. *)
Definition snapshot (r : t) : list string := _stack r.

End Trace.

(** ** exception.h: the exception object *)

(** [string _who; string _what; int _line;] *)
Record Exception : Type := { _who : string; _what : string; _line : Z }.

(** [enum class Type { gwers, std, unknown }] ([Type] is reserved in Rocq). *)
Inductive Type_ : Set := gwers | std | unknown.

(** [const string& who() const], [what()], [int line() const]. *)
Definition who (e : Exception) : string := _who e.
Definition what (e : Exception) : string := _what e.
Definition line (e : Exception) : Z := _line e.

(** [std::exception], as far as the library looks at it: its [what()]. *)
Record std_exception : Type := { std_what : string }.

(** An exception object in flight.  A catch clause of class type matches on
    the public base classes of the object and, catching by value, copies that
    base sub-object: [gwers_base] is the [Gwers::Exception] sub-object and
    [std_base] the [std::exception] one, when the dynamic type has it.
    [throw int(66)] has neither. *)
Record Thrown : Type := {
  type_name : string;
  gwers_base : option Exception;
  std_base : option std_exception
}.

(** ** The world and the result of running code *)

Section Programs.

(** Whatever else the program reads and writes (globals, heap). *)
Variable U : Type.

Record World : Type := { trace : Trace.t; user : U }.

Definition with_trace (r : Trace.t) (w : World) : World :=
  {| trace := r; user := user w |}.

Inductive Result (A : Type) : Type :=
| Returned (a : A) (w : World)
| Raised (x : Thrown) (w : World)
| Undefined.

Definition M (A : Type) : Type := World -> Result A.

Definition ret {A} (a : A) : M A := fun w => Returned A a w.

Definition bind {A B} (m : M A) (k : A -> M B) : M B :=
  fun w =>
    match m w with
    | Returned _ a w' => k a w'
    | Raised _ x w' => Raised B x w'
    | Undefined _ => Undefined B
    end.

(** [throw x;] *)
Definition throw {A} (x : Thrown) : M A := fun w => Raised A x w.

(** A call of a static function of [Trace] on the calling thread. *)
Definition on_trace (f : Trace.t -> Trace.t) : M unit :=
  fun w => Returned unit tt (with_trace (f (trace w)) w).

End Programs.

Arguments Returned {U A} a w.
Arguments Raised {U A} x w.
Arguments Undefined {U A}.
Arguments with_trace {U} r w.
Arguments ret {U A} a w.
Arguments bind {U A B} m k w.
Arguments throw {U A} x w.
Arguments on_trace {U} f w.
Arguments trace {U} w.
Arguments user {U} w.

Declare Scope gwers_scope.
Delimit Scope gwers_scope with gwers.
Notation "x <- m ;; k" := (bind m (fun x => k))
  (at level 61, m at next level, right associativity) : gwers_scope.
Notation "m ;;; k" := (bind m (fun _ => k))
  (at level 61, right associativity) : gwers_scope.
Open Scope gwers_scope.

Section Library.

Variable U : Type.

(** *** Objects of class [Trace] with automatic storage *)

(** What the end of a block does to a [Trace] object declared in it: its
    destructor runs, on a normal exit and during stack unwinding alike. *)
Definition leave_scope {A} (res : Result U A) : Result U A :=
  match res with
  | Returned a w =>
      match Trace.dtor (trace w) with
      | Some r => Returned a (with_trace r w)
      | None => Undefined
      end
  | Raised x w =>
      match Trace.dtor (trace w) with
      | Some r => Raised x (with_trace r w)
      | None => Undefined
      end
  | Undefined => Undefined
  end.

(** [{ Trace x_trace(F); body }] *)
Definition Trace_scope {A} (F : string) (body : M U A) : M U A :=
  fun w => leave_scope (body (with_trace (Trace.ctor F (trace w)) w)).

(** [#ifdef DTRACE #define X_BEGIN(F) ::Gwers::Trace x_trace(F)]
    [#else #define X_BEGIN(F)], at the head of a function body. *)
Definition X_BEGIN {A} (DTRACE : bool) (F : string) (body : M U A) : M U A :=
  if DTRACE then Trace_scope F body else body.

(** [body] inside the scopes [fs], outermost first. *)
Definition nested {A} (fs : list string) (body : M U A) : M U A :=
  fold_right Trace_scope body fs.

(** *** The exception class *)

(** [Exception::Exception(who, what, line): _who {who}, _what {what},]
    [_line {line} { Trace::lock(); }] *)
Definition Exception_ctor (who what : string) (line : Z) : M U Exception :=
  on_trace Trace.lock ;;;
  ret {| _who := who; _what := what; _line := line |}.

(** An exception declared with [GWX_EXCEPTION(X)] after [GWX_DECLARE(N)]:
    [struct X : public ::Gwers::Exception]
    [{ X(int l): ::Gwers::Exception(GWX__get__who(),#X,l) {} };] *)
Record Variant : Type := { declared_in : string; variant_name : string }.

Definition Variant_ctor (X : Variant) (l : Z) : M U Thrown :=
  e <- Exception_ctor (declared_in X) (variant_name X) l ;;
  ret {| type_name := variant_name X;
         gwers_base := Some e;
         std_base := None |}.

(** [template<class X> void Exception::assert(bool cond, int line)]
    [{ if (!cond) { throw X(line); } }] *)
Definition assert (X : Variant) (cond : bool) (line : Z) : M U unit :=
  if negb cond then (x <- Variant_ctor X line ;; throw x) else ret tt.

(** [throw Exception(who, what, line);] *)
Definition throw_Exception {A} (who what : string) (line : Z) : M U A :=
  e <- Exception_ctor who what line ;;
  throw {| type_name := "Gwers::Exception";
           gwers_base := Some e;
           std_base := None |}.

(** *** The macros of exception.h *)

(** [#ifdef DEBUG #define GWX_ASSERT(T,X,L) ::Gwers::Exception::assert<X>(T,L);]
    [#else #define GWX_ASSERT(T,X,L)] *)
Definition GWX_ASSERT (DEBUG : bool) (T : M U bool) (X : Variant) (L : Z)
  : M U unit :=
  if DEBUG then (c <- T ;; assert X c L) else ret tt.

(** [#ifdef DEBUG #define GWX_CHECK(T,X,L) ::Gwers::Exception::assert<X>(T,L);]
    [#else #define GWX_CHECK(T,X,L) T;] *)
Definition GWX_CHECK (DEBUG : bool) (T : M U bool) (X : Variant) (L : Z)
  : M U unit :=
  if DEBUG then (c <- T ;; assert X c L) else (T ;;; ret tt).

(** *** exception.cpp *)

(** [what()] of an object whose dynamic type is [std::exception] itself; the
    C++ standard leaves the text to the implementation. *)
Variable std_exception_what : string.

(** The parameter of [catch (std::exception e)]: a copy of the
    [std::exception] sub-object, which has no data members of its own. *)
Definition slice_std (e : std_exception) : std_exception :=
  {| std_what := std_exception_what |}.

(** [efp]: pointer to a [void] function of [(Type t, Exception* e,]
    [std::exception* std)]; a null pointer argument is [None]. *)
Definition efp : Type :=
  Type_ -> option Exception -> option std_exception -> M U unit.

(** The calls [base_catch] makes through its two function pointers, each with
    the trace record the callee finds when it starts.  The log is not part of
    the program's state: it only serves to state how often and on what the
    pointers are called. *)
Inductive Call : Type :=
| CallBase (r : Trace.t)
| CallHandler (t : Type_) (e : option Exception) (s : option std_exception)
    (r : Trace.t).

Definition call_handler (handler : efp) (t : Type_) (e : option Exception)
  (s : option std_exception) (w : World U) : list Call * Result U unit :=
  ([CallHandler t e s (trace w)], handler t e s w).

(** [void Exception::base_catch(fp base, efp handler)]
    [{ Trace::flush();]
    [  try { base(); }]
    [  catch (Exception e) { handler(Type::gwers,&e,nullptr); }]
    [  catch (std::exception e) { handler(Type::std,nullptr,&e); }]
    [  catch (...) { handler(Type::unknown,nullptr,nullptr); } }] *)
Definition base_catch (base : M U unit) (handler : efp) (w : World U)
  : list Call * Result U unit :=
  let w0 := with_trace (Trace.flush (trace w)) w in
  match base w0 with
  | Returned _ w1 => ([CallBase (trace w0)], Returned tt w1)
  | Raised x w1 =>
      let (calls, res) :=
        match gwers_base x with
        | Some e => call_handler handler gwers (Some e) None w1
        | None =>
            match std_base x with
            | Some s => call_handler handler std None (Some (slice_std s)) w1
            | None => call_handler handler unknown None None w1
            end
        end in
      (CallBase (trace w0) :: calls, res)
  | Undefined => ([CallBase (trace w0)], Undefined)
  end.

(** [base_catch] as a statement of a larger program. *)
Definition do_base_catch (base : M U unit) (handler : efp) : M U unit :=
  fun w => snd (base_catch base handler w).

Definition is_CallBase (c : Call) : bool :=
  match c with CallBase _ => true | CallHandler _ _ _ _ => false end.

Definition is_CallHandler (c : Call) : bool :=
  match c with CallBase _ => false | CallHandler _ _ _ _ => true end.

(** How often the log calls [base], and how often [handler]. *)
Definition base_calls (cs : list Call) : nat :=
  List.length (filter is_CallBase cs).

Definition handler_calls (cs : list Call) : nat :=
  List.length (filter is_CallHandler cs).

End Library.

Arguments leave_scope {U A} res.
Arguments Trace_scope {U A} F body w.
Arguments X_BEGIN {U A} DTRACE F body w.
Arguments nested {U A} fs body.
Arguments Exception_ctor {U} who what line w.
Arguments Variant_ctor {U} X l w.
Arguments assert {U} X cond line w.
Arguments throw_Exception {U A} who what line w.
Arguments GWX_ASSERT {U} DEBUG T X L w.
Arguments GWX_CHECK {U} DEBUG T X L w.
Arguments base_catch {U} std_exception_what base handler w.
Arguments do_base_catch {U} std_exception_what base handler w.
Arguments call_handler {U} handler t e s w.

(** ** Callbacks that count their own calls *)

(** Two counters beside the state of the program, which only the two
    wrappers below write: as [base_touch] and [handler_touch] in the unit
    test of [base_catch], they tell from the inside how often [base] and
    [handler] were entered. *)
Record Counted (U : Type) : Type := {
  base_count : nat;
  handler_count : nat;
  inner : U
}.

Arguments base_count {U} c.
Arguments handler_count {U} c.
Arguments inner {U} c.

(** The world without the counters. *)
Definition uncounted {U} (w : World (Counted U)) : World U :=
  {| trace := trace w; user := inner (user w) |}.

(** A result of code that does not know the counters, with their values. *)
Definition with_counts {U A} (nb nh : nat) (res : Result U A)
  : Result (Counted U) A :=
  match res with
  | Returned a w' =>
      Returned a {| trace := trace w';
                    user := {| base_count := nb; handler_count := nh;
                               inner := user w' |} |}
  | Raised x w' =>
      Raised x {| trace := trace w';
                  user := {| base_count := nb; handler_count := nh;
                             inner := user w' |} |}
  | Undefined => Undefined
  end.

(** Code that does not know the counters, run beside them. *)
Definition beside_counts {U A} (m : M U A) : M (Counted U) A :=
  fun w =>
    with_counts (base_count (user w)) (handler_count (user w))
      (m (uncounted w)).

(** [++base_count;] and [++handler_count;] *)
Definition count_base {U} : M (Counted U) unit :=
  fun w =>
    Returned tt {| trace := trace w;
                   user := {| base_count := S (base_count (user w));
                              handler_count := handler_count (user w);
                              inner := inner (user w) |} |}.

Definition count_handler {U} : M (Counted U) unit :=
  fun w =>
    Returned tt {| trace := trace w;
                   user := {| base_count := base_count (user w);
                              handler_count := S (handler_count (user w));
                              inner := inner (user w) |} |}.

(** [base] and [handler] with a first statement that counts the call. *)
Definition counting_base {U} (base : M U unit) : M (Counted U) unit :=
  count_base ;;; beside_counts base.

Definition counting_handler {U} (handler : efp U) : efp (Counted U) :=
  fun t e s => count_handler ;;; beside_counts (handler t e s).

(** Whether an exception left the code: 1 if so, 0 if not. *)
Definition thrown_once {U A} (res : Result U A) : nat :=
  match res with
  | Raised _ _ => 1
  | _ => 0
  end.

(** ** Sequences of constructions and destructions of [Trace] objects *)

(** One [Trace] object is constructed ([Push]) or destroyed ([Release]).  A
    [Trace] object has no data member: what tells two of them apart is which
    construction made them, so the handle [h] of an object is the number of
    constructions that came before its own. *)
Inductive Event : Type :=
| Push (fname : string)
| Release (h : nat).

(** What the library does at an event; the destructor does not look at the
    object it destroys. *)
Definition step (e : Event) (r : Trace.t) : option Trace.t :=
  match e with
  | Push fname => Some (Trace.ctor fname r)
  | Release _ => Trace.dtor r
  end.

Fixpoint run (evs : list Event) (r : Trace.t) : option Trace.t :=
  match evs with
  | [] => Some r
  | e :: evs' =>
      match step e r with
      | Some r' => run evs' r'
      | None => None
      end
  end.

(** The bookkeeping the specification speaks of, kept apart from the
    library's vector: every construction since the last reset with its handle
    and label, in order, and the handles destroyed so far. *)
Record Ledger : Type := { pushed : list (nat * string); released : list nat }.

Definition no_events : Ledger := {| pushed := []; released := [] |}.

Definition record_event (e : Event) (g : Ledger) : Ledger :=
  match e with
  | Push fname =>
      {| pushed := pushed g ++ [(List.length (pushed g), fname)];
         released := released g |}
  | Release h =>
      {| pushed := pushed g; released := h :: released g |}
  end.

Fixpoint record_events (evs : list Event) (g : Ledger) : Ledger :=
  match evs with
  | [] => g
  | e :: evs' => record_events evs' (record_event e g)
  end.

Definition is_released (g : Ledger) (p : nat * string) : bool :=
  existsb (Nat.eqb (fst p)) (released g).

(** The constructions not destroyed yet, oldest first. *)
Definition unreleased (g : Ledger) : list (nat * string) :=
  filter (fun p => negb (is_released g p)) (pushed g).

(** The handle of the youngest object still alive. *)
Definition youngest (g : Ledger) : option nat :=
  match rev (unreleased g) with
  | [] => None
  | (h, _) :: _ => Some h
  end.

(** Last in, first out: every destruction is that of the youngest object
    alive at that moment, as it is for objects with automatic storage. *)
Definition allowed (e : Event) (g : Ledger) : bool :=
  match e with
  | Push _ => true
  | Release h =>
      match youngest g with
      | Some h' => Nat.eqb h h'
      | None => false
      end
  end.

Fixpoint lifo_from (evs : list Event) (g : Ledger) : bool :=
  match evs with
  | [] => true
  | e :: evs' => allowed e g && lifo_from evs' (record_event e g)
  end.

Definition lifo (evs : list Event) : bool := lifo_from evs no_events.

(** The ledger is well numbered: handles are given out in order, and only
    handles given out have been released. *)
Definition consistent (g : Ledger) : Prop :=
  map fst (pushed g) = seq 0 (List.length (pushed g))
  /\ Forall (fun h => h < List.length (pushed g)) (released g).

(** [n] destructors in a row. *)
Fixpoint dtors (n : nat) (r : Trace.t) : option Trace.t :=
  match n with
  | O => Some r
  | S n' =>
      match Trace.dtor r with
      | Some r' => dtors n' r'
      | None => None
      end
  end.

(** ** trace.h with argument values: [Trace::build] and [GWX_BEGIN] *)

(** [static void build(std::ostringstream&) {}]
    [build(str,val) { str << "[" << val << "]"; }]
    [build(str,val,args...) { str << "[" << val << "],"; build(str,args...); }]
    The stream is the text written so far; each value is given as the text
    its [operator<<] writes. *)
Fixpoint build (str : string) (vals : list string) : string :=
  match vals with
  | [] => str
  | val :: args =>
      match args with
      | [] => String.append (String.append (String.append str "[") val) "]"
      | _ :: _ =>
          build (String.append (String.append (String.append str "[") val) "],")
            args
      end
  end.

(** [#ifdef DTRACE #define GWX_BEGIN(F,...)]
    [std::ostringstream GWX__tmp__string; GWX__tmp__string << F;]
    [::Gwers::Trace::build(GWX__tmp__string,##__VA_ARGS__);]
    [::Gwers::Trace x_trace(GWX__tmp__string.str());]
    [#else #define GWX_BEGIN(F,...)], at the head of a function body. *)
Definition GWX_BEGIN {U A} (DTRACE : bool) (F : string) (vals : list string)
  (body : M U A) : M U A :=
  if DTRACE then Trace_scope (build (String.append "" F) vals) body else body.

(** The labels of the constructions among the events, in order. *)
Fixpoint pushed_labels (evs : list Event) : list string :=
  match evs with
  | [] => []
  | Push fname :: evs' => fname :: pushed_labels evs'
  | Release _ :: evs' => pushed_labels evs'
  end.

(** How many destructions there are among the events. *)
Fixpoint released_count (evs : list Event) : nat :=
  match evs with
  | [] => 0
  | Push _ :: evs' => released_count evs'
  | Release _ :: evs' => S (released_count evs')
  end.

(** ** The other macros of exception.h *)

(** [#ifdef DEBUG]
    [#define GWX_PASS(V,C,F,X,L) ::Gwers::Exception::assert<X>(V C F,L);]
    [#else #define GWX_PASS(V,C,F,X,L) F;]
    [V] is a value, [C] the comparison and [F] the call. *)
Definition GWX_PASS {U A} (DEBUG : bool) (V : A) (C : A -> A -> bool)
  (F : M U A) (X : Variant) (L : Z) : M U unit :=
  if DEBUG then (r <- F ;; assert X (C V r) L) else (F ;;; ret tt).

(** [#ifdef DEBUG]
    [#define GWX_TRY(S,X,L) try { S; } catch(...) { throw X(L); }]
    [#else #define GWX_TRY(S,X,L) S;] *)
Definition GWX_TRY {U} (DEBUG : bool) (S : M U unit) (X : Variant) (L : Z)
  : M U unit :=
  if DEBUG then
    fun w =>
      match S w with
      | Returned a w' => Returned a w'
      | Raised _ w' => (x <- Variant_ctor X L ;; throw x) w'
      | Undefined => Undefined
      end
  else S.

(** The object [X(L)] in flight. *)
Definition Variant_object (X : Variant) (L : Z) : Thrown :=
  {| type_name := variant_name X;
     gwers_base := Some {| _who := declared_in X;
                           _what := variant_name X;
                           _line := L |};
     std_base := None |}.

(** ** unittest.hh / unittest.cpp *)

(** What is written to [std::cout]: a string or an [int]. *)
Inductive Out : Type :=
| OutStr (s : string)
| OutInt (n : Z).

(** The largest [int], with the 32 bits [int] has for the compiler of the
    Makefile ([g++]). *)
Definition INT_MAX : Z := 2147483647.

(** The character written for the escape [\n] of a C++ string literal. *)
Definition newline : string := String (Ascii.ascii_of_nat 10) EmptyString.

(** [cout << *i; if (++i != end) cout << " --->\n"; else cout << "\n";]
    under [for (auto i = begin(); i != end(); ++i)], on the frames from [i]
    on.  The iterator is advanced twice in each round; advancing it when it
    is [end()] already is undefined. *)
Fixpoint trace_lines (frames : list string) : option (list Out) :=
  match frames with
  | [] => Some []
  | f :: after_f =>
      match after_f with
      | [] => None
      | _ :: after_next =>
          match trace_lines after_next with
          | Some o =>
              Some (OutStr f :: OutStr (String.append " --->" newline) :: o)
          | None => None
          end
      end
  end.

Section Harness.

(** The globals of the tests. *)
Variable G : Type.
Variable std_exception_what : string.

(** [std::cout], [static int UnitTest::_count], and the [_count] of the
    [Run] that is executing (the one [next()] is called on). *)
Record Harness : Type := {
  cout : list Out;
  UnitTest_count : Z;
  Run_count : Z;
  globals : G
}.

Definition on_harness (f : Harness -> Harness) : M Harness unit :=
  fun w => Returned tt {| trace := trace w; user := f (user w) |}.

(** [std::cout << ...] *)
Definition print (o : list Out) : M Harness unit :=
  on_harness (fun h => {| cout := cout h ++ o;
                          UnitTest_count := UnitTest_count h;
                          Run_count := Run_count h;
                          globals := globals h |}).

(** [_count = n;] in a member function of [Run]. *)
Definition set_Run_count (f : Z -> Z) : M Harness unit :=
  on_harness (fun h => {| cout := cout h;
                          UnitTest_count := UnitTest_count h;
                          Run_count := f (Run_count h);
                          globals := globals h |}).

(** [++_count;] in a member function of [Run]: the counter is an [int], and
    incrementing an [int] that is [INT_MAX] is undefined. *)
Definition incr_Run_count : M Harness unit :=
  fun w =>
    if (Run_count (user w) <? INT_MAX)%Z
    then set_Run_count Z.succ w
    else Undefined.

(** [++(UnitTest::_count);] on the [static int]. *)
Definition incr_UnitTest_count : M Harness unit :=
  fun w =>
    if (UnitTest_count (user w) <? INT_MAX)%Z
    then on_harness (fun h => {| cout := cout h;
                                 UnitTest_count := (UnitTest_count h + 1)%Z;
                                 Run_count := Run_count h;
                                 globals := globals h |}) w
    else Undefined.

(** [void UnitTest::Run::next()]
    [{ std::cout << "."; ++_count; ++(UnitTest::_count); }] *)
Definition next : M Harness unit :=
  print [OutStr "."] ;;; incr_Run_count ;;; incr_UnitTest_count.

(** [string _name; fp _in; fp _out; list _tests;] a null function pointer is
    [None]. *)
Record Run : Type := {
  _name : string;
  _in : option (M Harness unit);
  _out : option (M Harness unit);
  _tests : list (string * M Harness unit)
}.

(** [inline UnitTest::Run::Run(name, in, out)] and
    [Run::add(name, test) { _tests.emplace_back(name,test); }] *)
Definition Run_ctor (name : string) (fin fout : option (M Harness unit))
  : Run :=
  {| _name := name; _in := fin; _out := fout; _tests := [] |}.

Definition Run_add (name : string) (test : M Harness unit) (r : Run) : Run :=
  {| _name := _name r; _in := _in r; _out := _out r;
     _tests := _tests r ++ [(name, test)] |}.

(** A call through a function pointer. *)
Definition call (f : option (M Harness unit)) : M Harness unit :=
  match f with
  | Some g => g
  | None => fun _ => Undefined
  end.

(** [std::cout << i.first << _count << " FAILED.\n";] *)
Definition report (name : string) : M Harness unit :=
  fun w =>
    print [OutStr name; OutInt (Run_count (user w));
           OutStr (String.append " FAILED." newline)] w.

(** The loop over [Gwers::Trace::begin()] to [end()] in the first catch
    clause. *)
Definition print_trace : M Harness unit :=
  fun w =>
    match trace_lines (Trace.snapshot (trace w)) with
    | Some o => print o w
    | None => Undefined
    end.

(** The three catch clauses of [Run::execute], up to [_out();]. *)
Definition caught (name : string) (fout : option (M Harness unit))
  (x : Thrown) : M Harness unit :=
  match gwers_base x with
  | Some e =>
      report name ;;;
      print [OutStr "Gwers: "; OutStr (who e); OutStr ":"; OutStr (what e);
             OutStr newline] ;;;
      print [OutStr (String.append "TRACE:" newline)] ;;;
      print_trace ;;;
      call fout
  | None =>
      match std_base x with
      | Some d =>
          report name ;;;
          print [OutStr "Std: ";
                 OutStr (std_what (slice_std std_exception_what d));
                 OutStr newline] ;;;
          call fout
      | None =>
          report name ;;;
          call fout
      end
  end.

(** The loop [for (auto i:_tests)] of [Run::execute]; its value is [ret]. *)
Fixpoint run_tests (fout : option (M Harness unit))
  (tests : list (string * M Harness unit)) : M Harness bool :=
  match tests with
  | [] => ret true
  | (name, test) :: rest =>
      fun w =>
        match (set_Run_count (fun _ => 1%Z) ;;; incr_UnitTest_count ;;;
               print [OutStr "."] ;;; test) w with
        | Returned _ w' => run_tests fout rest w'
        | Raised x w' => (caught name fout x ;;; ret false) w'
        | Undefined => Undefined
        end
  end.

(** [bool UnitTest::Run::execute()] *)
Definition Run_execute (r : Run) : M Harness bool :=
  print [OutStr (_name r)] ;;;
  call (_in r) ;;;
  ok <- run_tests (_out r) (_tests r) ;;
  if ok then (call (_out r) ;;; print [OutStr newline] ;;; ret true)
  else ret false.

(** The loop of [UnitTest::execute]; its value is [pass]. *)
Fixpoint run_runs (runs : list Run) : M Harness bool :=
  match runs with
  | [] => ret true
  | r :: rest =>
      ok <- Run_execute r ;;
      if ok then run_runs rest else ret false
  end.

(** [void UnitTest::execute()] *)
Definition UnitTest_execute (runs : list Run) : M Harness unit :=
  pass <- run_runs runs ;;
  if pass then
    fun w =>
      print [OutInt (UnitTest_count (user w));
             OutStr (String.append " unit test(s) passed." newline)] w
  else ret tt.

End Harness.

Arguments cout {G} h.
Arguments UnitTest_count {G} h.
Arguments Run_count {G} h.
Arguments globals {G} h.
Arguments on_harness {G} f w.
Arguments print {G} o w.
Arguments set_Run_count {G} f w.
Arguments incr_Run_count {G} w.
Arguments incr_UnitTest_count {G} w.
Arguments next {G} w.
Arguments _name {G} r.
Arguments _in {G} r.
Arguments _out {G} r.
Arguments _tests {G} r.
Arguments Run_ctor {G} name fin fout.
Arguments Run_add {G} name test r.
Arguments call {G} f w.
Arguments report {G} name w.
Arguments print_trace {G} w.
Arguments caught {G} std_exception_what name fout x w.
Arguments run_tests {G} std_exception_what fout tests w.
Arguments Run_execute {G} std_exception_what r w.
Arguments run_runs {G} std_exception_what runs w.
Arguments UnitTest_execute {G} std_exception_what runs w.

(** ** The programs of the unit tests of [base_catch] *)

(** [bool base_touch; int handler_touch;] *)
Record Touch : Type := { base_touch : bool; handler_touch : Z }.

Definition set_base_touch (b : bool) : M Touch unit :=
  fun w => Returned tt
    {| trace := trace w;
       user := {| base_touch := b;
                  handler_touch := handler_touch (user w) |} |}.

Definition set_handler_touch (n : Z) : M Touch unit :=
  fun w => Returned tt
    {| trace := trace w;
       user := {| base_touch := base_touch (user w);
                  handler_touch := n |} |}.

(** [std::vector::at] out of range: the object thrown is a
    [std::out_of_range], which has a [std::exception] part only. *)
Definition out_of_range : Thrown :=
  {| type_name := "std::out_of_range";
     gwers_base := None;
     std_base := Some {| std_what := "vector::_M_range_check" |} |}.

(** [throw int(66);] and [throw fail();] *)
Definition thrown_int : Thrown :=
  {| type_name := "int"; gwers_base := None; std_base := None |}.

Definition fail : Thrown :=
  {| type_name := "UnitTest::Run::Fail";
     gwers_base := None; std_base := None |}.

(** [void base_func()]
    [{ base_touch = true; throw gwe("test_who","test_what",66); }] *)
Definition base_func : M Touch unit :=
  set_base_touch true ;;; throw_Exception "test_who" "test_what" 66.

(** [void base_func_std()]
    [{ base_touch = true; std::vector<int> t; t.at(10000000000000) = 66; }] *)
Definition base_func_std : M Touch unit :=
  set_base_touch true ;;; throw out_of_range.

(** [void base_func_unknown() { base_touch = true; throw int(66); }] *)
Definition base_func_unknown : M Touch unit :=
  set_base_touch true ;;; throw thrown_int.

(** [void handler_func(gwe::Type t, gwe* e, std::exception* std)] *)
Definition handler_func : efp Touch :=
  fun t e s =>
    match t with
    | gwers =>
        match e, s with
        | Some e', None =>
            if negb (String.eqb (who e') "test_who")
               || negb (String.eqb (what e') "test_what")
               || negb (Z.eqb (line e') 66)
            then throw fail
            else set_handler_touch 1
        | _, _ => throw fail
        end
    | std =>
        match e, s with
        | None, Some _ => set_handler_touch 2
        | _, _ => throw fail
        end
    | unknown =>
        match e, s with
        | None, None => set_handler_touch 3
        | _, _ => throw fail
        end
    end.

(** The start of each test: [base_touch = false; handler_touch = 0;]. *)
Definition untouched (r : Trace.t) : World Touch :=
  {| trace := r; user := {| base_touch := false; handler_touch := 0 |} |}.

(** * Properties *)

(** ** The trace record *)

Lemma dtor_locked (r : Trace.t) :
  Trace._lock r = true -> Trace.dtor r = Some r.
Proof.
  intros H. unfold Trace.dtor. now rewrite H.
Qed.

Lemma dtors_locked (n : nat) (r : Trace.t) :
  Trace._lock r = true -> dtors n r = Some r.
Proof.
  intros H. induction n as [|n IH]; simpl; [reflexivity|].
  now rewrite (dtor_locked r H).
Qed.

Lemma dtor_unlocked_snoc (v : list string) (fname : string) :
  Trace.dtor (Trace.mk (v ++ [fname]) false) = Some (Trace.mk v false).
Proof.
  unfold Trace.dtor, Trace.pop_back; simpl.
  destruct (v ++ [fname]) eqn:E.
  - now destruct v.
  - rewrite <- E. now rewrite removelast_last.
Qed.

(** C8. Construction of a [Trace] object is not gated by the lock: on a
    locked record it appends the label at the tail, exactly as on the same
    record unlocked, while destruction on the locked record removes nothing. *)
Theorem push_not_gated_by_lock (r : Trace.t) (fname : string) :
  Trace.ctor fname (Trace.lock r) = Trace.mk (Trace._stack r ++ [fname]) true
  /\ Trace.snapshot (Trace.ctor fname (Trace.lock r))
     = Trace.snapshot (Trace.ctor fname (Trace.mk (Trace._stack r) false))
  /\ Trace.dtor (Trace.lock r) = Some (Trace.lock r)
  /\ Trace.dtor (Trace.ctor fname (Trace.lock r))
     = Some (Trace.ctor fname (Trace.lock r)).
Proof.
  repeat split.
Qed.

(** C10. On an unlocked record the destructor pops without looking whether
    the vector is empty: on a non-empty vector it removes the last element
    and is defined, on an empty one it is the undefined [pop_back]; a flush
    between a construction and the matching destruction leads there, whatever
    the record was before. *)
Theorem dtor_unguarded_pop (r : Trace.t) :
  Trace._lock r = false ->
  (Trace._stack r <> [] ->
     Trace.dtor r = Some (Trace.mk (removelast (Trace._stack r)) false))
  /\ (Trace._stack r = [] -> Trace.dtor r = None)
  /\ (forall fname, Trace.dtor (Trace.flush (Trace.ctor fname r)) = None)
  /\ (forall (U : Type) (u : U) (fname : string),
        Trace_scope fname (on_trace Trace.flush) {| trace := r; user := u |}
        = Undefined).
Proof.
  intros Hl. destruct r as [v l]; simpl in *; subst l.
  repeat split.
  - intros Hv. unfold Trace.dtor; simpl. destruct v; [contradiction|reflexivity].
  - intros ->. reflexivity.
Qed.

Lemma dtor_unguarded_pop_witness :
  Trace.dtor (Trace.mk ["main()"; "f()"] false)
  = Some (Trace.mk ["main()"] false)
  /\ Trace.dtor (Trace.flush (Trace.ctor "g()" (Trace.mk ["main()"; "f()"] false)))
     = None.
Proof.
  destruct (dtor_unguarded_pop (Trace.mk ["main()"; "f()"] false) eq_refl)
    as (H1 & _ & H3 & _).
  split.
  - apply H1. discriminate.
  - apply H3.
Defined.

(** [X_BEGIN(F)] is a [Trace] object for the rest of the function body with
    [DTRACE], and nothing without. *)
Lemma X_BEGIN_flag (U A : Type) (F : string) (body : M U A) :
  X_BEGIN true F body = Trace_scope F body /\ X_BEGIN false F body = body.
Proof. split; reflexivity. Qed.

(** ** The exception object *)

Section ExceptionProperties.

Variable U : Type.

(** C6. The constructor returns an object whose [who()], [what()] and
    [line()] are the three arguments, and leaves the world as it was except
    for the lock of the calling thread's trace record, which is set whatever
    it was: the stack and the rest of the world are untouched. *)
Theorem Exception_ctor_stores_and_locks
  (a b : string) (l : Z) (w : World U) :
  exists e w',
    Exception_ctor a b l w = Returned e w'
    /\ who e = a /\ what e = b /\ line e = l
    /\ Trace._lock (trace w') = true
    /\ Trace._stack (trace w') = Trace._stack (trace w)
    /\ user w' = user w.
Proof.
  eexists. eexists. repeat split.
Qed.

(** C5. [assert<X>(false, L)] leaves with an exception object of type [X]
    whose [Gwers::Exception] part has [line() = L] (and the [who] and [what]
    of the declaration of [X]); [assert<X>(true, L)] returns with the world
    unchanged. *)
Theorem assert_throws_iff_false (X : Variant) (L : Z) (w : World U) :
  (exists x e,
      assert X false L w = Raised x (with_trace (Trace.lock (trace w)) w)
      /\ type_name x = variant_name X
      /\ gwers_base x = Some e
      /\ line e = L /\ who e = declared_in X /\ what e = variant_name X)
  /\ assert X true L w = Returned tt w.
Proof.
  split; [|reflexivity].
  do 2 eexists. repeat split.
Qed.

(** C9. Without [DEBUG], [GWX_ASSERT(T,X,L)] is the empty statement: it
    returns with the world unchanged whatever [T] is, so [T] is not run; and
    [GWX_CHECK(T,X,L)] is the statement [T;]: it runs [T], ends as [T] ends
    with the world [T] leaves, and when [T] yields a value it returns
    whether that value is true or false. *)
Theorem disabled_guards (T : M U bool) (X : Variant) (L : Z) (w : World U) :
  GWX_ASSERT false T X L w = Returned tt w
  /\ match T w with
     | Returned c w' => GWX_CHECK false T X L w = Returned tt w'
     | Raised x w' => GWX_CHECK false T X L w = Raised x w'
     | Undefined => GWX_CHECK false T X L w = Undefined
     end.
Proof.
  split; [reflexivity|].
  unfold GWX_CHECK, bind. destruct (T w); reflexivity.
Qed.

End ExceptionProperties.

(** ** [base_catch] *)

Section BaseCatchProperties.

Variable U : Type.
Variable std_exception_what : string.

Lemma with_trace_same (w : World U) : with_trace (trace w) w = w.
Proof. now destruct w. Qed.

(** Unwinding through enclosing [Trace] scopes leaves a locked record as it
    is: an exception that leaves [body] with the lock set leaves every
    enclosing scope with the same world. *)
Lemma nested_raise_locked {A} (fs : list string) (body : M U A) :
  forall (v : list string) (lk : bool) (u : U) (x : Thrown) (w' : World U),
    body {| trace := Trace.mk (v ++ fs) lk; user := u |} = Raised x w' ->
    Trace._lock (trace w') = true ->
    nested fs body {| trace := Trace.mk v lk; user := u |} = Raised x w'.
Proof.
  induction fs as [|f fs IH]; intros v lk u x w' Hb Hl; simpl.
  - now rewrite app_nil_r in Hb.
  - unfold Trace_scope. unfold with_trace, Trace.ctor; simpl.
    fold (@nested U A fs body).
    rewrite (IH (v ++ [f]) lk u x w').
    + simpl. rewrite (dtor_locked _ Hl). now rewrite with_trace_same.
    + now rewrite <- app_assoc.
    + exact Hl.
Qed.

Lemma throw_Exception_raises {A} (a b : string) (l : Z) (w : World U) :
  @throw_Exception U A a b l w
  = Raised {| type_name := "Gwers::Exception";
              gwers_base := Some {| _who := a; _what := b; _line := l |};
              std_base := None |}
           (with_trace (Trace.lock (trace w)) w).
Proof. reflexivity. Qed.

(** C2. An exception that leaves [base] reaches the handler in exactly one
    of three ways, chosen by its type: with a [Gwers::Exception] part, as
    [Type::gwers] with a copy of that part (same who, what and line) and a
    null [std] pointer; with a [std::exception] part and no
    [Gwers::Exception] part, as [Type::std] (not [Type::gwers]) with a null
    exception pointer and a non-null [std] pointer; otherwise as
    [Type::unknown] with both pointers null. *)
Theorem base_catch_classifies
  (base : M U unit) (handler : efp U) (w w1 : World U) (x : Thrown) :
  base (with_trace (Trace.flush (trace w)) w) = Raised x w1 ->
  exists t e s,
    base_catch std_exception_what base handler w
    = ([CallBase (Trace.mk [] false); CallHandler t e s (trace w1)],
       handler t e s w1)
    /\ match gwers_base x, std_base x with
       | Some g, _ =>
           t = gwers /\ e = Some g /\ s = None
       | None, Some d =>
           t = std /\ t <> gwers /\ e = None
           /\ s = Some {| std_what := std_exception_what |}
       | None, None =>
           t = unknown /\ e = None /\ s = None
       end.
Proof.
  intros Hb. unfold base_catch. rewrite Hb.
  destruct (gwers_base x) as [g|]; [|destruct (std_base x) as [d|]];
    unfold call_handler; do 3 eexists; (split; [reflexivity|]);
    repeat split; discriminate.
Qed.

(** C3. Let [base] and [handler] count their own calls, whatever else they
    do.  After any call of [base_catch] the count of [base] has grown by
    exactly one, and the count of [handler] by one when an exception left
    [base] and by nothing otherwise; apart from the counts the outcome is
    that of the call with [base] and [handler] themselves.  That outcome is
    the return of [base] with the world it left, the handler not entered,
    when [base] returns, and what the one call of the handler does when
    [base] throws.  The log of the call says the same: one call of [base],
    and one of [handler] exactly when [base] threw. *)
Theorem base_catch_calls_once
  (base : M U unit) (handler : efp U) (w : World (Counted U)) :
  let plain := base_catch std_exception_what base handler (uncounted w) in
  let entered := base (with_trace (Trace.flush (trace w)) (uncounted w)) in
  snd (base_catch std_exception_what
         (counting_base base) (counting_handler handler) w)
  = with_counts (S (base_count (user w)))
      (handler_count (user w) + thrown_once entered) (snd plain)
  /\ match entered with
     | Returned _ w1 =>
         plain = ([CallBase (Trace.mk [] false)], Returned tt w1)
     | Raised x w1 =>
         exists t e s,
           plain = ([CallBase (Trace.mk [] false);
                     CallHandler t e s (trace w1)],
                    handler t e s w1)
     | Undefined =>
         plain = ([CallBase (Trace.mk [] false)], Undefined)
     end
  /\ base_calls (fst plain) = 1
  /\ handler_calls (fst plain) = thrown_once entered.
Proof.
  destruct w as [r [nb nh u]].
  unfold base_catch, counting_base, counting_handler, call_handler, bind,
    count_base, count_handler, beside_counts, uncounted, with_trace,
    Trace.flush.
  cbn [trace user inner base_count handler_count].
  destruct (base {| trace := Trace.mk [] false; user := u |})
    as [[] w1|x w1|]; cbn [with_counts thrown_once trace user inner
                             base_count handler_count snd fst].
  - rewrite Nat.add_0_r. repeat split.
  - rewrite Nat.add_1_r.
    destruct w1 as [r1 u1]; cbn [trace user].
    destruct (gwers_base x) as [g|]; [|destruct (std_base x) as [d|]];
      cbn [snd fst trace user inner base_count handler_count];
      (split; [reflexivity|]); (split; [do 3 eexists; reflexivity|]);
      split; reflexivity.
  - repeat split.
Qed.


(** C1. Let [base] enter the scopes [fs], run some code [pre] that returns
    with those [fs] on the stack, and throw a [Gwers::Exception] there.  All
    the scopes are left by unwinding before [base_catch] catches it, and the
    handler still finds the stack [fs], in the order of entry, under the
    lock; the exception it is given is the one constructed.  Indeed no number
    of destructors run after the lock was set changes the record. *)
Theorem frozen_stack_survives_unwinding
  (fs : list string) (pre : M U unit) (a b : string) (l : Z)
  (handler : efp U) (w w2 : World U) :
  pre (with_trace (Trace.mk fs false) w) = Returned tt w2 ->
  Trace._stack (trace w2) = fs ->
  base_catch std_exception_what
    (nested fs (pre ;;; throw_Exception a b l)) handler w
  = ([CallBase (Trace.mk [] false);
      CallHandler gwers (Some {| _who := a; _what := b; _line := l |}) None
        (Trace.mk fs true)],
     handler gwers (Some {| _who := a; _what := b; _line := l |}) None
       (with_trace (Trace.mk fs true) w2))
  /\ (forall n : nat,
        dtors n (Trace.lock (trace w2)) = Some (Trace.mk fs true)).
Proof.
  intros Hpre Hfs. split.
  - unfold base_catch.
    destruct w as [r0 u]. unfold with_trace at 1 2; simpl.
    unfold with_trace in Hpre; simpl in Hpre.
    rewrite (nested_raise_locked fs (pre ;;; throw_Exception a b l) [] false u
               {| type_name := "Gwers::Exception";
                  gwers_base := Some {| _who := a; _what := b; _line := l |};
                  std_base := None |}
               (with_trace (Trace.mk fs true) w2)).
    + reflexivity.
    + simpl. unfold bind. rewrite Hpre. rewrite throw_Exception_raises.
      unfold Trace.lock. now rewrite Hfs.
    + reflexivity.
  - intros n. rewrite dtors_locked by reflexivity.
    unfold Trace.lock. now rewrite Hfs.
Qed.

End BaseCatchProperties.

Lemma frozen_stack_survives_unwinding_witness :
  base_catch "std::exception"
    (nested ["main()"; "f()"]
       (ret tt ;;; throw_Exception "mod::Thing" "Bad" 66))
    (fun _ _ _ => ret tt)
    {| trace := Trace.mk ["stale"] true; user := tt |}
  = ([CallBase (Trace.mk [] false);
      CallHandler gwers
        (Some {| _who := "mod::Thing"; _what := "Bad"; _line := 66 |}) None
        (Trace.mk ["main()"; "f()"] true)],
     Returned tt {| trace := Trace.mk ["main()"; "f()"] true; user := tt |}).
Proof.
  exact (proj1 (frozen_stack_survives_unwinding unit "std::exception"
                  ["main()"; "f()"] (ret tt) "mod::Thing" "Bad" 66
                  (fun _ _ _ => ret tt)
                  {| trace := Trace.mk ["stale"] true; user := tt |}
                  {| trace := Trace.mk ["main()"; "f()"] false; user := tt |}
                  eq_refl eq_refl)).
Defined.

Lemma base_catch_classifies_witness :
  exists t e s,
    base_catch "std::exception" (throw out_of_range) (fun _ _ _ => ret tt)
      {| trace := Trace.mk ["stale"] true; user := tt |}
    = ([CallBase (Trace.mk [] false);
        CallHandler t e s (Trace.mk [] false)],
       Returned tt {| trace := Trace.mk [] false; user := tt |})
    /\ t = std /\ t <> gwers /\ e = None
    /\ s = Some {| std_what := "std::exception" |}.
Proof.
  exact (base_catch_classifies unit "std::exception"
           (throw out_of_range) (fun _ _ _ => ret tt)
           {| trace := Trace.mk ["stale"] true; user := tt |}
           {| trace := Trace.mk [] false; user := tt |}
           out_of_range eq_refl).
Defined.

Lemma base_catch_calls_once_witness :
  snd (base_catch "std::exception"
         (counting_base (nested ["main()"] (throw out_of_range)))
         (counting_handler (fun _ _ _ => ret tt))
         {| trace := Trace.mk ["stale"] true;
            user := {| base_count := 0; handler_count := 0; inner := tt |} |})
  = Returned tt
      {| trace := Trace.mk [] false;
         user := {| base_count := 1; handler_count := 1; inner := tt |} |}.
Proof.
  exact (proj1 (base_catch_calls_once unit "std::exception"
                  (nested ["main()"] (throw out_of_range))
                  (fun _ _ _ => ret tt)
                  {| trace := Trace.mk ["stale"] true;
                     user := {| base_count := 0; handler_count := 0;
                                inner := tt |} |})).
Defined.

(** The three unit tests of [base_catch] pass: [base] was called and the
    handler was given the arguments of the kind thrown. *)
Example unit_base_catch_gwers (r : Trace.t) :
  exists r',
    snd (base_catch "std::exception" base_func handler_func (untouched r))
    = Returned tt
        {| trace := r';
           user := {| base_touch := true; handler_touch := 1 |} |}.
Proof. eexists. reflexivity. Qed.

Example unit_base_catch_std (r : Trace.t) :
  exists r',
    snd (base_catch "std::exception" base_func_std handler_func (untouched r))
    = Returned tt
        {| trace := r';
           user := {| base_touch := true; handler_touch := 2 |} |}.
Proof. eexists. reflexivity. Qed.

Example unit_base_catch_unknown (r : Trace.t) :
  exists r',
    snd (base_catch "std::exception" base_func_unknown handler_func
           (untouched r))
    = Returned tt
        {| trace := r';
           user := {| base_touch := true; handler_touch := 3 |} |}.
Proof. eexists. reflexivity. Qed.

(** The unit tests of [Trace]: three nested scopes leave an empty stack;
    with [lock()] called in the innermost the three labels stay, and
    [flush()] removes them; of four objects on the heap, deleting the last
    two leaves the first two. *)
Example unit_trace_basic :
  nested ["first"; "second"; "third"] (ret tt)
    {| trace := Trace.initial; user := tt |}
  = Returned tt {| trace := Trace.mk [] false; user := tt |}.
Proof. reflexivity. Qed.

Example unit_trace_lock :
  nested ["first"; "second"; "third"] (on_trace Trace.lock)
    {| trace := Trace.initial; user := tt |}
  = Returned tt
      {| trace := Trace.mk ["first"; "second"; "third"] true; user := tt |}.
Proof. reflexivity. Qed.

Example unit_trace_flush :
  (nested ["first"; "second"; "third"] (on_trace Trace.lock) ;;;
   on_trace Trace.flush)
    {| trace := Trace.initial; user := tt |}
  = Returned tt {| trace := Trace.mk [] false; user := tt |}.
Proof. reflexivity. Qed.

Example unit_trace_extra :
  run [Push "first"; Push "second"; Push "third"; Push "fourth";
       Release 3; Release 2] Trace.initial
  = Some (Trace.mk ["first"; "second"] false).
Proof. reflexivity. Qed.

(** ** Last in, first out *)

Lemma existsb_eqb_fresh (n : nat) (hs : list nat) :
  Forall (fun h => h < n) hs -> existsb (Nat.eqb n) hs = false.
Proof.
  induction 1 as [|h hs Hh _ IH]; simpl; [reflexivity|].
  rewrite IH, orb_false_r. apply Nat.eqb_neq. lia.
Qed.

Lemma filter_andb {A} (f g : A -> bool) (l : list A) :
  filter (fun x => f x && g x) l = filter f (filter g l).
Proof.
  induction l as [|x l IH]; simpl; [reflexivity|].
  destruct (g x); simpl.
  - rewrite andb_true_r. destruct (f x); now rewrite IH.
  - now rewrite andb_false_r.
Qed.

Lemma filter_all {A} (f : A -> bool) (l : list A) :
  (forall x, In x l -> f x = true) -> filter f l = l.
Proof.
  induction l as [|x l IH]; simpl; intros H; [reflexivity|].
  rewrite (H x (or_introl eq_refl)). f_equal. apply IH. auto.
Qed.

(** Keeping some of the constructions keeps their handles distinct. *)
Lemma kept_handles_NoDup (keep : nat * string -> bool)
  (ps : list (nat * string)) :
  NoDup (map fst ps) -> NoDup (map fst (filter keep ps)).
Proof.
  induction ps as [|[h l] ps IH]; simpl; intros H; [constructor|].
  apply NoDup_cons_iff in H as [Hh Hps].
  destruct (keep (h, l)); simpl; [|now apply IH].
  apply NoDup_cons_iff. split; [|now apply IH].
  intros Hin. apply Hh.
  apply in_map_iff in Hin as (q & Hq & Hin).
  apply filter_In in Hin as [Hin _].
  rewrite <- Hq. now apply in_map.
Qed.

Lemma unreleased_handles_NoDup (g : Ledger) :
  consistent g -> NoDup (map fst (unreleased g)).
Proof.
  intros [Hp _]. unfold unreleased. apply kept_handles_NoDup.
  rewrite Hp. apply seq_NoDup.
Qed.

Lemma unreleased_handle_bound (g : Ledger) (h : nat) :
  consistent g -> In h (map fst (unreleased g)) -> h < List.length (pushed g).
Proof.
  intros [Hp _] Hin. apply in_map_iff in Hin as ([h' l] & Heq & Hin).
  simpl in Heq; subst h'. apply filter_In in Hin as [Hin _].
  assert (H : In h (map fst (pushed g))) by (apply in_map_iff; now exists (h, l)).
  rewrite Hp in H. apply in_seq in H. lia.
Qed.

Lemma youngest_snoc (g : Ledger) (h : nat) :
  youngest g = Some h -> exists rest l, unreleased g = rest ++ [(h, l)].
Proof.
  unfold youngest. destruct (rev (unreleased g)) as [|[h' l] t] eqn:E;
    [discriminate|].
  intros [= ->]. exists (rev t), l.
  rewrite <- (rev_involutive (unreleased g)), E. reflexivity.
Qed.

Lemma snoc_youngest (g : Ledger) (hs : list nat) (h : nat) :
  map fst (unreleased g) = hs ++ [h] -> youngest g = Some h.
Proof.
  unfold youngest. intros H.
  assert (E : rev (map fst (unreleased g)) = h :: rev hs)
    by (rewrite H, rev_app_distr; reflexivity).
  rewrite <- map_rev in E.
  destruct (rev (unreleased g)) as [|[h' l] t]; simpl in E; [discriminate|].
  now injection E as -> _.
Qed.

Lemma unreleased_Push (g : Ledger) (fname : string) :
  consistent g ->
  unreleased (record_event (Push fname) g)
  = unreleased g ++ [(List.length (pushed g), fname)].
Proof.
  intros [_ Hr]. unfold unreleased, is_released; simpl.
  rewrite filter_app; simpl.
  now rewrite (existsb_eqb_fresh _ _ Hr).
Qed.

Lemma unreleased_Release (g : Ledger) (h : nat) (rest : list (nat * string))
  (l : string) :
  consistent g ->
  unreleased g = rest ++ [(h, l)] ->
  unreleased (record_event (Release h) g) = rest.
Proof.
  intros Hc Hu.
  pose proof (unreleased_handles_NoDup g Hc) as Hnd.
  unfold unreleased, is_released in *; simpl.
  rewrite (filter_ext _ (fun p => negb (Nat.eqb (fst p) h)
                             && negb (existsb (Nat.eqb (fst p)) (released g))))
    by (intro p; apply negb_orb).
  rewrite filter_andb.
  rewrite Hu in *. rewrite filter_app; simpl.
  rewrite Nat.eqb_refl; simpl. rewrite app_nil_r.
  apply filter_all. intros [h' l'] Hin; simpl.
  apply negb_true_iff, Nat.eqb_neq. intros ->.
  rewrite map_app in Hnd; simpl in Hnd.
  apply NoDup_remove_2 in Hnd. apply Hnd. rewrite app_nil_r.
  apply in_map_iff. now exists (h, l').
Qed.

Lemma consistent_record_event (e : Event) (g : Ledger) :
  consistent g -> allowed e g = true -> consistent (record_event e g).
Proof.
  intros Hc Ha. destruct e as [fname|h]; simpl.
  - destruct Hc as [Hp Hr]. split; simpl.
    + rewrite map_app, length_app, Hp; simpl.
      rewrite Nat.add_1_r, seq_S. reflexivity.
    + rewrite length_app; simpl.
      eapply Forall_impl; [|exact Hr]. simpl; intros; lia.
  - simpl in Ha. destruct (youngest g) as [h'|] eqn:Hy; [|discriminate].
    apply Nat.eqb_eq in Ha; subst h'.
    destruct (youngest_snoc g h Hy) as (rest & l & Hu).
    split; simpl; [apply Hc|].
    constructor; [|apply Hc].
    apply unreleased_handle_bound; [exact Hc|].
    rewrite Hu, map_app. apply in_or_app. right. now left.
Qed.

(** The library's vector follows the ledger along every sequence of events
    that is last in, first out: the run is defined, stays unlocked, and the
    stack is the labels of the objects still alive, oldest first. *)
Lemma run_follows_ledger (evs : list Event) :
  forall (g : Ledger) (r : Trace.t),
    consistent g ->
    Trace._lock r = false ->
    Trace._stack r = map snd (unreleased g) ->
    lifo_from evs g = true ->
    exists r',
      run evs r = Some r'
      /\ Trace._lock r' = false
      /\ Trace._stack r' = map snd (unreleased (record_events evs g)).
Proof.
  induction evs as [|e evs IH]; intros g r Hc Hl Hs Hlifo; simpl in *.
  - now exists r.
  - apply andb_true_iff in Hlifo as [Ha Hlifo].
    pose proof (consistent_record_event e g Hc Ha) as Hc'.
    destruct e as [fname|h]; cbn [step].
    + apply (IH (record_event (Push fname) g) (Trace.ctor fname r) Hc');
        [exact Hl| |exact Hlifo].
      rewrite (unreleased_Push g fname Hc), map_app, <- Hs. reflexivity.
    + simpl in Ha. destruct (youngest g) as [h'|] eqn:Hy; [|discriminate].
      apply Nat.eqb_eq in Ha; subst h'.
      destruct (youngest_snoc g h Hy) as (rest & l & Hu).
      destruct r as [v lk]; simpl in Hl, Hs; subst lk.
      rewrite Hs, Hu, map_app; cbn [map snd].
      rewrite dtor_unlocked_snoc.
      apply (IH (record_event (Release h) g) (Trace.mk (map snd rest) false)
               Hc'); [reflexivity| |exact Hlifo].
      now rewrite (unreleased_Release g h rest l Hc Hu).
Qed.

Lemma consistent_no_events : consistent no_events.
Proof. split; simpl; [reflexivity|constructor]. Qed.

Lemma lifo_from_app (a b : list Event) :
  forall g, lifo_from (a ++ b) g
            = lifo_from a g && lifo_from b (record_events a g).
Proof.
  induction a as [|e a IH]; intros g; simpl; [reflexivity|].
  now rewrite IH, andb_assoc.
Qed.

Lemma run_app (a b : list Event) :
  forall r, run (a ++ b) r
            = match run a r with Some r' => run b r' | None => None end.
Proof.
  induction a as [|e a IH]; intros r; simpl; [reflexivity|].
  destruct (step e r); [apply IH|reflexivity].
Qed.

Lemma lifo_from_prefix (pre post : list Event) (g : Ledger) :
  lifo_from (pre ++ post) g = true -> lifo_from pre g = true.
Proof.
  rewrite lifo_from_app. intros H. now apply andb_true_iff in H.
Qed.

Lemma run_pushes (fs : list string) :
  forall (v : list string) (lk : bool),
    run (map Push fs) (Trace.mk v lk) = Some (Trace.mk (v ++ fs) lk).
Proof.
  induction fs as [|f fs IH]; intros v lk; simpl.
  - now rewrite app_nil_r.
  - unfold Trace.ctor; simpl. now rewrite IH, <- app_assoc.
Qed.

Lemma run_releases (hs : list nat) :
  forall v : list string,
    List.length v = List.length hs ->
    run (map Release hs) (Trace.mk v false) = Some (Trace.mk [] false).
Proof.
  induction hs as [|h hs IH]; intros v Hlen; simpl in *.
  - now destruct v.
  - destruct (exists_last (l := v)) as (v' & f & ->);
      [intros ->; discriminate|].
    rewrite dtor_unlocked_snoc. apply IH.
    rewrite length_app in Hlen; simpl in Hlen. lia.
Qed.

Lemma record_pushes (fs : list string) :
  forall g : Ledger,
    consistent g ->
    consistent (record_events (map Push fs) g)
    /\ released (record_events (map Push fs) g) = released g
    /\ List.length (pushed (record_events (map Push fs) g))
       = List.length (pushed g) + List.length fs
    /\ lifo_from (map Push fs) g = true.
Proof.
  induction fs as [|f fs IH]; intros g Hc;
    cbn [map record_events lifo_from allowed andb].
  - repeat split; try apply Hc. simpl. lia.
  - destruct (IH (record_event (Push f) g)
                (consistent_record_event (Push f) g Hc eq_refl))
      as (H1 & H2 & H3 & H4).
    repeat split; try apply H1; try assumption.
    rewrite H3; simpl. rewrite length_app; simpl. lia.
Qed.

Lemma unreleased_none_released (g : Ledger) :
  released g = [] -> unreleased g = pushed g.
Proof.
  intros H. unfold unreleased, is_released. rewrite H; simpl.
  now apply filter_all.
Qed.

(** Destroying the objects alive, youngest first, is last in, first out. *)
Lemma lifo_release_youngest_first (hs : list nat) :
  forall (g : Ledger) (older : list nat),
    consistent g ->
    map fst (unreleased g) = older ++ hs ->
    lifo_from (map Release (rev hs)) g = true.
Proof.
  induction hs as [|h hs IH] using rev_ind; intros g older Hc Hu;
    [reflexivity|].
  rewrite rev_app_distr; cbn [rev app map lifo_from allowed].
  rewrite app_assoc in Hu.
  pose proof (snoc_youngest g _ h Hu) as Hy.
  rewrite Hy, Nat.eqb_refl; cbn [andb].
  destruct (youngest_snoc g h Hy) as (rest & l & Hr).
  apply (IH (record_event (Release h) g) older).
  - apply (consistent_record_event (Release h) g Hc).
    simpl. now rewrite Hy, Nat.eqb_refl.
  - rewrite (unreleased_Release g h rest l Hc Hr).
    rewrite Hr, map_app in Hu; simpl in Hu.
    now apply app_inj_tail in Hu.
Qed.

(** C7. From a reset record and with no exception constructed: the stack
    after constructing [Trace] objects with the labels [fs] is [fs], oldest
    first; destroying them all in the reverse order is last in, first out and
    leaves the stack empty; and after any part [pre] of a sequence of
    constructions and destructions that is last in, first out, the run is
    defined and the stack is the labels of the objects constructed and not
    yet destroyed, in the order of their construction. *)
Theorem trace_stack_is_lifo (r0 : Trace.t) :
  (forall fs : list string,
      run (map Push fs) (Trace.flush r0) = Some (Trace.mk fs false))
  /\ (forall fs : list string,
        let evs := map Push fs
                   ++ map Release (rev (seq 0 (List.length fs))) in
        lifo evs = true
        /\ run evs (Trace.flush r0) = Some (Trace.mk [] false))
  /\ (forall pre post : list Event,
        lifo (pre ++ post) = true ->
        exists r,
          run pre (Trace.flush r0) = Some r
          /\ Trace._lock r = false
          /\ Trace.snapshot r
             = map snd (unreleased (record_events pre no_events))).
Proof.
  split; [|split].
  - intros fs. apply (run_pushes fs [] false).
  - intros fs evs. subst evs.
    destruct (record_pushes fs no_events consistent_no_events)
      as (Hc & Hr & Hlen & Hl).
    split.
    + unfold lifo. rewrite lifo_from_app, Hl; simpl.
      apply (lifo_release_youngest_first _ _ [] Hc).
      rewrite (unreleased_none_released _ Hr).
      destruct Hc as [Hp _]. rewrite Hp, Hlen. reflexivity.
    + rewrite run_app. unfold Trace.flush.
      rewrite (run_pushes fs [] false); simpl.
      apply run_releases. now rewrite length_rev, length_seq.
  - intros pre post H.
    apply (run_follows_ledger pre no_events (Trace.flush r0)
             consistent_no_events eq_refl eq_refl).
    exact (lifo_from_prefix pre post no_events H).
Qed.

Lemma trace_stack_is_lifo_witness :
  exists r,
    run [Push "a"; Push "b"; Release 1; Push "c"]
      (Trace.flush (Trace.mk ["stale"] true)) = Some r
    /\ Trace._lock r = false
    /\ Trace.snapshot r
       = map snd (unreleased
                    (record_events [Push "a"; Push "b"; Release 1; Push "c"]
                       no_events)).
Proof.
  exact (proj2 (proj2 (trace_stack_is_lifo (Trace.mk ["stale"] true)))
           [Push "a"; Push "b"; Release 1; Push "c"]
           [Release 2; Release 0] eq_refl).
Defined.

(** * Further properties of the library *)

(** ** Labels with argument values *)

Lemma string_append_assoc (a b c : string) :
  String.append (String.append a b) c = String.append a (String.append b c).
Proof.
  induction a as [|ch a IH]; simpl; [reflexivity|]. now rewrite IH.
Qed.

Lemma string_append_empty (a : string) : String.append a "" = a.
Proof.
  induction a as [|ch a IH]; simpl; [reflexivity|]. now rewrite IH.
Qed.

Lemma prefix_append (a b : string) : String.prefix a (String.append a b) = true.
Proof.
  induction a as [|ch a IH]; simpl.
  - now destruct b.
  - destruct (Ascii.ascii_dec ch ch) as [_|N]; [exact IH|now elim N].
Qed.

(** X1. [build] appends to the stream the values, each between square
    brackets, separated by commas and with no comma at the end; so the label
    [GWX_BEGIN(F,...)] pushes starts with [F], and is [F] itself when there
    are no values. *)
Theorem build_brackets_values (str : string) (vals : list string) :
  build str vals
  = String.append str
      (String.concat ","
         (map (fun val => String.append "[" (String.append val "]")) vals))
  /\ String.prefix str (build str vals) = true
  /\ build str [] = str
  /\ (forall (U A : Type) (body : M U A) (w : World U),
        GWX_BEGIN true str vals body w
        = Trace_scope
            (String.append str
               (String.concat ","
                  (map (fun val => String.append "[" (String.append val "]"))
                     vals)))
            body w).
Proof.
  assert (E : forall vs s,
             build s vs
             = String.append s
                 (String.concat ","
                    (map (fun val => String.append "[" (String.append val "]"))
                       vs))).
  { induction vs as [|val [|val' args] IH]; intros s.
    - simpl. now rewrite string_append_empty.
    - simpl. now rewrite !string_append_assoc.
    - change (build s (val :: val' :: args))
        with (build (String.append
                       (String.append (String.append s "[") val) "],")
                (val' :: args)).
      rewrite IH.
      change (String.concat ","
                (map (fun v => String.append "[" (String.append v "]"))
                   (val :: val' :: args)))
        with (String.append (String.append "[" (String.append val "]"))
                (String.append ","
                   (String.concat ","
                      (map (fun v => String.append "[" (String.append v "]"))
                         (val' :: args))))).
      rewrite !string_append_assoc. reflexivity. }
  split; [apply E|]. split; [|split; [reflexivity|]].
  - rewrite E. apply prefix_append.
  - intros U A body w. unfold GWX_BEGIN. cbn [String.append]. now rewrite E.
Qed.

(** ** Destructions that are not last in, first out *)

(** X2. The destructor does not look at the object destroyed: destroying
    [Trace] objects on an unlocked record, whichever objects they are,
    removes as many labels from the tail of the stack, and is undefined as
    soon as more objects are destroyed than there are labels. *)
Theorem releases_pop_the_tail (hs : list nat) :
  forall v : list string,
    run (map Release hs) (Trace.mk v false)
    = if Nat.leb (List.length hs) (List.length v)
      then Some (Trace.mk (firstn (List.length v - List.length hs) v) false)
      else None.
Proof.
  induction hs as [|h hs IH]; intros v.
  - simpl. now rewrite Nat.sub_0_r, firstn_all.
  - destruct v as [|f v] using rev_ind; [reflexivity|].
    cbn [map run step]. rewrite dtor_unlocked_snoc, IH.
    rewrite length_app; cbn [List.length].
    replace (List.length v + 1) with (S (List.length v)) by lia.
    cbn [Nat.leb Nat.sub].
    destruct (Nat.leb (List.length hs) (List.length v)) eqn:E; [|reflexivity].
    apply Nat.leb_le in E.
    rewrite firstn_app.
    replace (List.length v - List.length hs - List.length v) with 0 by lia.
    now rewrite firstn_O, app_nil_r.
Qed.

(** X3. On a locked record every sequence of constructions and destructions
    is defined, removes nothing and keeps the lock: the stack afterwards is
    the stack before followed by every label pushed, also those of objects
    destroyed since. *)
Theorem locked_stack_only_grows (evs : list Event) :
  forall v : list string,
    run evs (Trace.mk v true) = Some (Trace.mk (v ++ pushed_labels evs) true).
Proof.
  induction evs as [|[fname|h] evs IH]; intros v; cbn [run step pushed_labels].
  - now rewrite app_nil_r.
  - unfold Trace.ctor; cbn [Trace._stack Trace._lock].
    now rewrite IH, <- app_assoc.
  - rewrite dtor_locked by reflexivity. apply IH.
Qed.

(** ** Scopes *)

Section ScopeProperties.

Variable U : Type.
Variable std_exception_what : string.

Lemma nested_cons {A} (f : string) (fs : list string) (body : M U A)
  (w : World U) :
  nested (f :: fs) body w
  = leave_scope (nested fs body (with_trace (Trace.ctor f (trace w)) w)).
Proof. reflexivity. Qed.

Lemma nested_return_balanced {A} (fs : list string) (body : M U A) :
  forall (v : list string) (u : U) (a : A) (w' : World U),
    body {| trace := Trace.mk (v ++ fs) false; user := u |} = Returned a w' ->
    trace w' = Trace.mk (v ++ fs) false ->
    nested fs body {| trace := Trace.mk v false; user := u |}
    = Returned a (with_trace (Trace.mk v false) w').
Proof.
  induction fs as [|f fs IH]; intros v u a w' Hb Ht.
  - rewrite app_nil_r in Hb, Ht. simpl. rewrite Hb, <- Ht.
    now rewrite with_trace_same.
  - rewrite nested_cons.
    unfold with_trace at 1, Trace.ctor; cbn [trace user Trace._stack Trace._lock].
    rewrite (IH (v ++ [f]) u a w');
      [|now rewrite <- app_assoc|now rewrite <- app_assoc].
    cbn [leave_scope with_trace trace user].
    now rewrite dtor_unlocked_snoc.
Qed.

Lemma nested_raise_balanced {A} (fs : list string) (body : M U A) :
  forall (v : list string) (u : U) (x : Thrown) (w' : World U),
    body {| trace := Trace.mk (v ++ fs) false; user := u |} = Raised x w' ->
    trace w' = Trace.mk (v ++ fs) false ->
    nested fs body {| trace := Trace.mk v false; user := u |}
    = Raised x (with_trace (Trace.mk v false) w').
Proof.
  induction fs as [|f fs IH]; intros v u x w' Hb Ht.
  - rewrite app_nil_r in Hb, Ht. simpl. rewrite Hb, <- Ht.
    now rewrite with_trace_same.
  - rewrite nested_cons.
    unfold with_trace at 1, Trace.ctor; cbn [trace user Trace._stack Trace._lock].
    rewrite (IH (v ++ [f]) u x w');
      [|now rewrite <- app_assoc|now rewrite <- app_assoc].
    cbn [leave_scope with_trace trace user].
    now rewrite dtor_unlocked_snoc.
Qed.

(** X4. While the record is unlocked the stack follows the scopes: when the
    code inside the scopes [fs] ends, by returning or by an exception, with
    the stack it was started with and the lock clear, the scopes end in the
    same way with the stack as it was before they were entered. *)
Theorem scopes_restore_the_stack {A} (fs : list string) (body : M U A)
  (v : list string) (u : U) (w' : World U) :
  trace w' = Trace.mk (v ++ fs) false ->
  (forall a,
      body {| trace := Trace.mk (v ++ fs) false; user := u |} = Returned a w' ->
      nested fs body {| trace := Trace.mk v false; user := u |}
      = Returned a (with_trace (Trace.mk v false) w'))
  /\ (forall x,
        body {| trace := Trace.mk (v ++ fs) false; user := u |} = Raised x w' ->
        nested fs body {| trace := Trace.mk v false; user := u |}
        = Raised x (with_trace (Trace.mk v false) w')).
Proof.
  intros Ht. split; intros y Hb.
  - now apply nested_return_balanced.
  - now apply nested_raise_balanced.
Qed.

Lemma nested_return_locked {A} (fs : list string) (body : M U A) :
  forall (v : list string) (lk : bool) (u : U) (a : A) (w' : World U),
    body {| trace := Trace.mk (v ++ fs) lk; user := u |} = Returned a w' ->
    Trace._lock (trace w') = true ->
    nested fs body {| trace := Trace.mk v lk; user := u |} = Returned a w'.
Proof.
  induction fs as [|f fs IH]; intros v lk u a w' Hb Hl.
  - rewrite app_nil_r in Hb. exact Hb.
  - rewrite nested_cons.
    unfold with_trace at 1, Trace.ctor; cbn [trace user Trace._stack Trace._lock].
    rewrite (IH (v ++ [f]) lk u a w'); [|now rewrite <- app_assoc|exact Hl].
    cbn [leave_scope]. rewrite (dtor_locked _ Hl). now rewrite with_trace_same.
Qed.

(** X5. Once the lock is set the scopes no longer pop, also on a normal
    return: when the code inside the scopes [fs] returns with the lock set
    (an exception object was constructed, even if it was caught there), the
    scopes return with the world that code left, the labels still on the
    stack.  In particular scopes entered on a locked record leave their
    labels behind. *)
Theorem locked_scopes_leave_labels {A} (fs : list string) (body : M U A)
  (v : list string) (lk : bool) (u : U) (a : A) (w' : World U) :
  body {| trace := Trace.mk (v ++ fs) lk; user := u |} = Returned a w' ->
  Trace._lock (trace w') = true ->
  nested fs body {| trace := Trace.mk v lk; user := u |} = Returned a w'
  /\ nested fs (ret a) {| trace := Trace.mk v true; user := u |}
     = Returned a {| trace := Trace.mk (v ++ fs) true; user := u |}.
Proof.
  intros Hb Hl. split.
  - now apply nested_return_locked.
  - now apply nested_return_locked.
Qed.

(** X6. An exception thrown inside the scopes [fs] without an exception
    object being constructed there (so that nothing sets the lock) reaches
    the handler of [base_catch] with an empty, unlocked stack: the scopes
    were popped on the way. *)
Theorem unlocked_exception_finds_empty_stack
  (fs : list string) (pre : M U unit) (x : Thrown) (handler : efp U)
  (w w2 : World U) :
  pre (with_trace (Trace.mk fs false) w) = Returned tt w2 ->
  trace w2 = Trace.mk fs false ->
  exists t e s,
    base_catch std_exception_what (nested fs (pre ;;; throw x)) handler w
    = ([CallBase (Trace.mk [] false);
        CallHandler t e s (Trace.mk [] false)],
       handler t e s (with_trace (Trace.mk [] false) w2)).
Proof.
  intros Hpre Ht. unfold base_catch.
  destruct w as [r0 u]. unfold with_trace at 1 2; cbn [trace user Trace.flush].
  unfold with_trace in Hpre; cbn [user] in Hpre.
  rewrite (nested_raise_balanced fs (pre ;;; throw x) [] u x w2);
    [| unfold bind; cbn [app]; now rewrite Hpre | exact Ht].
  destruct (gwers_base x) as [g|]; [|destruct (std_base x) as [d|]];
    unfold call_handler; do 3 eexists; reflexivity.
Qed.

(** X7. A [Trace] object around a call of [base_catch] is destroyed on an
    empty stack: when [base] returns with its own scopes closed, leaving the
    scope around [base_catch] is undefined. *)
Theorem scope_around_base_catch_undefined
  (F : string) (base : M U unit) (handler : efp U) (w w1 : World U) :
  base (with_trace (Trace.mk [] false) w) = Returned tt w1 ->
  trace w1 = Trace.mk [] false ->
  Trace_scope F (do_base_catch std_exception_what base handler) w = Undefined.
Proof.
  intros Hb Ht. unfold Trace_scope, do_base_catch, base_catch.
  destruct w as [r0 u]. unfold with_trace, Trace.flush in *.
  cbn [trace user] in *.
  rewrite Hb. cbn [snd leave_scope]. now rewrite Ht.
Qed.

End ScopeProperties.

(** ** The macros with [DEBUG] *)

Section MacroProperties.

Variable U : Type.
Variable std_exception_what : string.

Lemma Variant_throw (X : Variant) (L : Z) (w : World U) :
  (x <- Variant_ctor X L ;; throw x) w
  = @Raised U unit (Variant_object X L) (with_trace (Trace.lock (trace w)) w).
Proof. reflexivity. Qed.

(** X8. With [DEBUG], [GWX_ASSERT] and [GWX_CHECK] are the same statement:
    [T] is run, and [X(L)] is thrown, after what [T] did and with the lock
    set, exactly when [T] yields false; what [T] throws goes through.  So
    when [T] yields true the two builds of [GWX_CHECK] end alike, and those
    of [GWX_ASSERT] differ by what [T] did. *)
Theorem enabled_guards (T : M U bool) (X : Variant) (L : Z) (w : World U) :
  GWX_ASSERT true T X L w = GWX_CHECK true T X L w
  /\ match T w with
     | Returned c w' =>
         GWX_CHECK true T X L w
         = (if c then Returned tt w'
            else Raised (Variant_object X L)
                   (with_trace (Trace.lock (trace w')) w'))
         /\ GWX_CHECK false T X L w = Returned tt w'
         /\ GWX_ASSERT false T X L w = Returned tt w
     | Raised x w' => GWX_CHECK true T X L w = Raised x w'
     | Undefined => GWX_CHECK true T X L w = Undefined
     end.
Proof.
  split; [reflexivity|].
  unfold GWX_CHECK, GWX_ASSERT, bind.
  destruct (T w) as [[|] w'|x w'|]; repeat split.
Qed.

(** X9. [GWX_PASS(V,C,F,X,L)] calls [F] in both builds.  Without [DEBUG] it
    returns with what [F] did whatever [F] yields; with [DEBUG] it does so
    when [V C r] holds for the value [r] of [F], and otherwise throws [X(L)]
    with the lock set.  What [F] throws goes through in both. *)
Theorem GWX_PASS_calls_F {A} (V : A) (C : A -> A -> bool) (F : M U A)
  (X : Variant) (L : Z) (w : World U) :
  match F w with
  | Returned r w' =>
      GWX_PASS false V C F X L w = Returned tt w'
      /\ GWX_PASS true V C F X L w
         = if C V r then Returned tt w'
           else Raised (Variant_object X L)
                  (with_trace (Trace.lock (trace w')) w')
  | Raised x w' =>
      GWX_PASS false V C F X L w = Raised x w'
      /\ GWX_PASS true V C F X L w = Raised x w'
  | Undefined =>
      GWX_PASS false V C F X L w = Undefined
      /\ GWX_PASS true V C F X L w = Undefined
  end.
Proof.
  unfold GWX_PASS, bind. destruct (F w) as [r w'|x w'|]; try (split; reflexivity).
  split; [reflexivity|]. destruct (C V r); reflexivity.
Qed.

(** X10. With [DEBUG], whatever [S] throws inside [GWX_TRY(S,X,L)] reaches
    [base_catch] as the [Gwers::Exception] [X(L)], and the handler finds the
    stack as [S] left it when it threw, under the lock.  So when nothing in
    [S] set the lock, the scopes [inner] entered inside [S] were popped and
    the handler finds the scopes [outer] around the macro only; when [S]
    threw a [Gwers::Exception] it constructed inside [inner], those scopes
    are still on the stack, and the exception of [S] is replaced by [X(L)]
    all the same.  Without [DEBUG] the macro is [S]. *)
Theorem GWX_TRY_rethrows_on_the_stack_left
  (outer : list string) (S : M U unit) (x : Thrown) (X : Variant) (L : Z)
  (handler : efp U) (w w1 : World U) :
  S {| trace := Trace.mk outer false; user := user w |} = Raised x w1 ->
  base_catch std_exception_what
    (nested outer (GWX_TRY true S X L)) handler w
  = ([CallBase (Trace.mk [] false);
      CallHandler gwers
        (Some {| _who := declared_in X; _what := variant_name X; _line := L |})
        None (Trace.lock (trace w1))],
     handler gwers
       (Some {| _who := declared_in X; _what := variant_name X; _line := L |})
       None (with_trace (Trace.lock (trace w1)) w1))
  /\ (forall (inner : list string) (x0 : Thrown),
        base_catch std_exception_what
          (nested outer (GWX_TRY true (nested inner (throw x0)) X L))
          handler w
        = ([CallBase (Trace.mk [] false);
            CallHandler gwers
              (Some {| _who := declared_in X; _what := variant_name X;
                       _line := L |})
              None (Trace.mk outer true)],
           handler gwers
             (Some {| _who := declared_in X; _what := variant_name X;
                      _line := L |})
             None {| trace := Trace.mk outer true; user := user w |}))
  /\ (forall (inner : list string) (a b : string) (l : Z),
        base_catch std_exception_what
          (nested outer
             (GWX_TRY true (nested inner (throw_Exception a b l)) X L))
          handler w
        = ([CallBase (Trace.mk [] false);
            CallHandler gwers
              (Some {| _who := declared_in X; _what := variant_name X;
                       _line := L |})
              None (Trace.mk (outer ++ inner) true)],
           handler gwers
             (Some {| _who := declared_in X; _what := variant_name X;
                      _line := L |})
             None
             {| trace := Trace.mk (outer ++ inner) true; user := user w |}))
  /\ base_catch std_exception_what
       (nested outer (GWX_TRY false S X L)) handler w
     = base_catch std_exception_what (nested outer S) handler w.
Proof.
  assert (Gen : forall (S0 : M U unit) (x0 : Thrown) (w0 : World U),
             S0 {| trace := Trace.mk outer false; user := user w |}
             = Raised x0 w0 ->
             base_catch std_exception_what
               (nested outer (GWX_TRY true S0 X L)) handler w
             = ([CallBase (Trace.mk [] false);
                 CallHandler gwers
                   (Some {| _who := declared_in X; _what := variant_name X;
                            _line := L |})
                   None (Trace.lock (trace w0))],
                handler gwers
                  (Some {| _who := declared_in X; _what := variant_name X;
                           _line := L |})
                  None (with_trace (Trace.lock (trace w0)) w0))).
  { intros S0 x0 w0 HS.
    destruct w as [r0 u]. cbn [user] in HS.
    unfold base_catch, with_trace at 1 2, Trace.flush; cbn [trace user].
    rewrite (nested_raise_locked U outer (GWX_TRY true S0 X L) [] false u
               (Variant_object X L)
               (with_trace (Trace.lock (trace w0)) w0));
      [reflexivity| |reflexivity].
    unfold GWX_TRY. cbn [app]. rewrite HS. reflexivity. }
  intros HS. split; [exact (Gen S x w1 HS)|]. split; [|split; [|reflexivity]].
  - intros inner x0.
    apply (Gen (nested inner (throw x0)) x0
             {| trace := Trace.mk outer false; user := user w |}).
    apply (nested_raise_balanced U inner (throw x0) outer (user w) x0
             {| trace := Trace.mk (outer ++ inner) false; user := user w |});
      reflexivity.
  - intros inner a b l.
    apply (Gen (nested inner (throw_Exception a b l))
             {| type_name := "Gwers::Exception";
                gwers_base := Some {| _who := a; _what := b; _line := l |};
                std_base := None |}
             {| trace := Trace.mk (outer ++ inner) true; user := user w |}).
    apply (nested_raise_locked U inner (throw_Exception a b l) outer false
             (user w)); reflexivity.
Qed.

End MacroProperties.

(** ** The test runner *)

Lemma flat_map_seq_S {B} (F : nat -> list B) (m : nat) :
  forall s, flat_map F (seq (S s) m) = flat_map (fun k => F (S k)) (seq s m).
Proof.
  induction m as [|m IH]; intros s; simpl; [reflexivity|]. now rewrite IH.
Qed.

(** X11. The loop that prints the trace advances its iterator twice in each
    round.  On a stack of even length it prints the frames at the even
    positions only (the first, the third, ...), each followed by the arrow,
    and never the last frame; on a stack of odd length it steps over
    [end()], which is undefined. *)
Theorem trace_loop_skips_every_other_frame (frames : list string) :
  trace_lines frames
  = if Nat.even (List.length frames)
    then Some (flat_map
                 (fun k => [OutStr (nth (2 * k) frames "");
                            OutStr (String.append " --->" newline)])
                 (seq 0 (Nat.div2 (List.length frames))))
    else None.
Proof.
  enough (H : forall f : string,
             (trace_lines frames
              = if Nat.even (List.length frames)
                then Some (flat_map
                             (fun k => [OutStr (nth (2 * k) frames "");
                                        OutStr (String.append " --->" newline)])
                             (seq 0 (Nat.div2 (List.length frames))))
                else None)
             /\ (trace_lines (f :: frames)
                 = if Nat.even (List.length (f :: frames))
                   then Some (flat_map
                                (fun k =>
                                   [OutStr (nth (2 * k) (f :: frames) "");
                                    OutStr (String.append " --->" newline)])
                                (seq 0 (Nat.div2 (List.length (f :: frames)))))
                   else None))
    by exact (proj1 (H "")).
  induction frames as [|g rest IH]; intros f.
  - split; reflexivity.
  - split; [exact (proj2 (IH g))|].
    destruct (IH f) as [Hrest _].
    change (trace_lines (f :: g :: rest))
      with (match trace_lines rest with
            | Some o =>
                Some (OutStr f :: OutStr (String.append " --->" newline) :: o)
            | None => None
            end).
    rewrite Hrest.
    change (List.length (f :: g :: rest)) with (S (S (List.length rest))).
    change (Nat.even (S (S (List.length rest))))
      with (Nat.even (List.length rest)).
    destruct (Nat.even (List.length rest)); [|reflexivity].
    change (Nat.div2 (S (S (List.length rest))))
      with (S (Nat.div2 (List.length rest))).
    cbn [seq flat_map]. rewrite flat_map_seq_S.
    change (2 * 0) with 0. cbn [nth app]. do 3 f_equal.
    apply flat_map_ext. intros k.
    replace (2 * S k) with (S (S (2 * k))) by lia. reflexivity.
Qed.

Section HarnessProperties.

Variable G : Type.
Variable std_exception_what : string.

(** X12. When a test throws a [Gwers::Exception] inside an odd number of
    scopes entered on an empty unlocked stack, the report of the failure is
    undefined: the loop printing the locked stack steps over its end. *)
Theorem odd_trace_makes_the_report_undefined
  (name : string) (fs : list string) (a b : string) (l : Z)
  (fout : option (M (Harness G) unit))
  (rest : list (string * M (Harness G) unit)) (h : Harness G) :
  Nat.even (List.length fs) = false ->
  run_tests std_exception_what fout
    ((name, nested fs (throw_Exception a b l)) :: rest)
    {| trace := Trace.mk [] false; user := h |}
  = Undefined.
Proof.
  intros Hodd. cbn [run_tests]. unfold bind at 1 2 3.
  cbn [set_Run_count on_harness trace user].
  unfold incr_UnitTest_count; cbn [trace user UnitTest_count].
  destruct (UnitTest_count h <? INT_MAX)%Z; [|reflexivity].
  cbn [print on_harness trace user].
  rewrite (nested_raise_locked (Harness G) fs (throw_Exception a b l)
             [] false _ _ _ (throw_Exception_raises _ a b l _) eq_refl).
  unfold caught; cbn [gwers_base]. unfold bind, report, print, on_harness.
  cbn [trace user with_trace Trace.lock Trace._stack app].
  unfold print_trace, Trace.snapshot, Trace.lock.
  cbn [trace Trace._stack].
  rewrite trace_loop_skips_every_other_frame, Hodd. reflexivity.
Qed.

Lemma caught_null_out (name : string) (x : Thrown) (w : World (Harness G)) :
  forall w', caught std_exception_what name None x w <> Returned tt w'.
Proof.
  intros w'. unfold caught, bind, call, report, print, print_trace, on_harness.
  destruct (gwers_base x) as [e|]; [|destruct (std_base x) as [d|]];
    cbn [trace user]; try discriminate.
  destruct (trace_lines _); discriminate.
Qed.

Lemma run_tests_null_out (tests : list (string * M (Harness G) unit)) :
  forall (w w' : World (Harness G)) (b : bool),
    run_tests std_exception_what None tests w = Returned b w' -> b = true.
Proof.
  induction tests as [|[name test] tests IH]; intros w w' b H.
  - now injection H as <- _.
  - cbn [run_tests] in H.
    destruct ((set_Run_count (fun _ => 1%Z) ;;; incr_UnitTest_count ;;;
               print [OutStr "."] ;;; test) w) as [[] w1|x w1|];
      [exact (IH _ _ _ H)| |discriminate].
    exfalso. unfold bind in H.
    destruct (caught std_exception_what name None x w1) as [[] w2|y w2|] eqn:E;
      try discriminate.
    exact (caught_null_out name x w1 w2 E).
Qed.

(** X13. [Run::execute] calls [_in] and [_out] without looking whether they
    are null: with a null [_in] it is undefined, and with a null [_out] it
    never returns a value, whatever the tests do. *)
Theorem execute_needs_in_and_out (r : Run G) (w : World (Harness G)) :
  (_in r = None -> Run_execute std_exception_what r w = Undefined)
  /\ (_out r = None ->
      forall b w', Run_execute std_exception_what r w <> Returned b w').
Proof.
  split.
  - intros Hin. unfold Run_execute, bind. rewrite Hin. reflexivity.
  - intros Hout b w' H. unfold Run_execute in H. rewrite Hout in H.
    unfold bind at 1 2 in H.
    destruct (print [OutStr (_name r)] w) as [[] w1|x w1|]; try discriminate.
    destruct (call (_in r) w1) as [[] w2|x w2|]; try discriminate.
    unfold bind in H.
    destruct (run_tests std_exception_what None (_tests r) w2)
      as [ok w3|x w3|] eqn:E; try discriminate.
    rewrite (run_tests_null_out _ _ _ _ E) in H. discriminate.
Qed.


End HarnessProperties.

(** ** Counting *)

(** X15. On an unlocked record the depth of the stack is the number of
    [Trace] objects alive: whenever a sequence of constructions and
    destructions is defined, the record is still unlocked and the stack has
    grown by the number of constructions less the number of destructions. *)
Theorem unlocked_depth_counts_live_objects (evs : list Event) :
  forall (v : list string) (r : Trace.t),
    run evs (Trace.mk v false) = Some r ->
    Trace._lock r = false
    /\ List.length (Trace._stack r) + released_count evs
       = List.length v + List.length (pushed_labels evs).
Proof.
  induction evs as [|[fname|h] evs IH]; intros v r H;
    cbn [run step pushed_labels released_count] in *.
  - injection H as <-. simpl. split; [reflexivity|lia].
  - unfold Trace.ctor in H; cbn [Trace._stack Trace._lock] in H.
    destruct (IH _ _ H) as [Hl Hd]. split; [exact Hl|].
    rewrite length_app in Hd. simpl in *. lia.
  - destruct v as [|f v] using rev_ind; [discriminate|].
    rewrite dtor_unlocked_snoc in H.
    destruct (IH _ _ H) as [Hl Hd]. split; [exact Hl|].
    rewrite length_app. simpl. lia.
Qed.

Section CountingProperties.

Variable G : Type.
Variable std_exception_what : string.

(** X16. Every test started adds one to [UnitTest::_count], beside what its
    calls of [next()] add: when each test, started with its own counter at 1
    and room for [k] more in [UnitTest::_count], returns having added [k],
    and the counter has room for all of them, the loop over the tests
    returns [true] and the counter has grown by the number of tests plus the
    sum of the [k].  With the counter at [INT_MAX] already, starting a test
    is undefined. *)
Theorem run_tests_counts_tests_and_next
  (fout : option (M (Harness G) unit))
  (tests : list (string * M (Harness G) unit)) (ks : list Z) :
  Forall2
    (fun t k =>
       (0 <= k)%Z
       /\ forall w,
            Run_count (user w) = 1%Z ->
            (UnitTest_count (user w) + k <= INT_MAX)%Z ->
            exists w',
              snd t w = Returned tt w'
              /\ UnitTest_count (user w')
                 = (UnitTest_count (user w) + k)%Z)
    tests ks ->
  forall w,
    ((UnitTest_count (user w) + Z.of_nat (List.length tests)
      + fold_right Z.add 0%Z ks <= INT_MAX)%Z ->
     exists w',
       run_tests std_exception_what fout tests w = Returned true w'
       /\ UnitTest_count (user w')
          = (UnitTest_count (user w) + Z.of_nat (List.length tests)
             + fold_right Z.add 0%Z ks)%Z)
    /\ (forall name test,
          (INT_MAX <= UnitTest_count (user w))%Z ->
          run_tests std_exception_what fout ((name, test) :: tests) w
          = Undefined).
Proof.
  intros H w. split.
  - revert w.
    enough (E : (0 <= fold_right Z.add 0%Z ks)%Z
                /\ forall w,
                     (UnitTest_count (user w) + Z.of_nat (List.length tests)
                      + fold_right Z.add 0%Z ks <= INT_MAX)%Z ->
                     exists w',
                       run_tests std_exception_what fout tests w
                       = Returned true w'
                       /\ UnitTest_count (user w')
                          = (UnitTest_count (user w)
                             + Z.of_nat (List.length tests)
                             + fold_right Z.add 0%Z ks)%Z)
      by exact (proj2 E).
    induction H as [|[name test] k tests ks [Hk Ht] _ [Hs IH]].
    + split; [simpl; lia|]. intros w _. exists w.
      split; [reflexivity|]. simpl. lia.
    + cbn [fold_right List.length snd] in *. rewrite Nat2Z.inj_succ.
      split; [lia|]. intros w Hroom.
      cbn [run_tests]. unfold bind at 1 2 3.
      cbn [set_Run_count on_harness trace user].
      unfold incr_UnitTest_count; cbn [trace user UnitTest_count].
      destruct (Z.ltb_spec (UnitTest_count (user w)) INT_MAX) as [_|Hge];
        [|lia].
      cbn [print on_harness trace user].
      match goal with
      | |- context [test ?w0] =>
          destruct (Ht w0 eq_refl) as (w1 & E1 & C1);
            [cbn [user UnitTest_count]; lia|]
      end.
      rewrite E1. cbn [user UnitTest_count] in C1.
      destruct (IH w1) as (w' & E & C); [lia|].
      exists w'. split; [exact E|]. lia.
  - intros name test Hmax. cbn [run_tests]. unfold bind at 1 2 3.
    cbn [set_Run_count on_harness trace user].
    unfold incr_UnitTest_count; cbn [trace user UnitTest_count].
    destruct (Z.ltb_spec (UnitTest_count (user w)) INT_MAX) as [Hlt|_];
      [lia|reflexivity].
Qed.

End CountingProperties.

(** ** Instances *)

Lemma scopes_restore_the_stack_witness :
  nested ["f()"; "g()"] (ret 7%Z)
    {| trace := Trace.mk ["main()"] false; user := tt |}
  = Returned 7%Z {| trace := Trace.mk ["main()"] false; user := tt |}.
Proof.
  exact (proj1 (scopes_restore_the_stack unit ["f()"; "g()"] (ret 7%Z)
                  ["main()"] tt
                  {| trace := Trace.mk ["main()"; "f()"; "g()"] false;
                     user := tt |} eq_refl) 7%Z eq_refl).
Defined.

Lemma locked_scopes_leave_labels_witness :
  nested ["f()"; "g()"] (on_trace Trace.lock)
    {| trace := Trace.mk ["main()"] false; user := tt |}
  = Returned tt
      {| trace := Trace.mk ["main()"; "f()"; "g()"] true; user := tt |}.
Proof.
  exact (proj1 (locked_scopes_leave_labels unit ["f()"; "g()"]
                  (on_trace Trace.lock) ["main()"] false tt tt
                  {| trace := Trace.mk ["main()"; "f()"; "g()"] true;
                     user := tt |} eq_refl eq_refl)).
Defined.

Lemma unlocked_exception_finds_empty_stack_witness :
  exists t e s,
    base_catch "std::exception"
      (nested ["main()"; "f()"] (ret tt ;;; throw out_of_range))
      (fun _ _ _ => ret tt)
      {| trace := Trace.mk ["stale"] true; user := tt |}
    = ([CallBase (Trace.mk [] false);
        CallHandler t e s (Trace.mk [] false)],
       Returned tt {| trace := Trace.mk [] false; user := tt |}).
Proof.
  exact (unlocked_exception_finds_empty_stack unit "std::exception"
           ["main()"; "f()"] (ret tt) out_of_range (fun _ _ _ => ret tt)
           {| trace := Trace.mk ["stale"] true; user := tt |}
           {| trace := Trace.mk ["main()"; "f()"] false; user := tt |}
           eq_refl eq_refl).
Defined.

Lemma scope_around_base_catch_undefined_witness :
  Trace_scope "main()"
    (do_base_catch "std::exception" (nested ["f()"] (ret tt))
       (fun _ _ _ => ret tt))
    {| trace := Trace.initial; user := tt |}
  = Undefined.
Proof.
  exact (scope_around_base_catch_undefined unit "std::exception" "main()"
           (nested ["f()"] (ret tt)) (fun _ _ _ => ret tt)
           {| trace := Trace.initial; user := tt |}
           {| trace := Trace.mk [] false; user := tt |} eq_refl eq_refl).
Defined.

Lemma unlocked_depth_counts_live_objects_witness :
  Trace._lock (Trace.mk ["main()"; "g()"] false) = false
  /\ List.length (Trace._stack (Trace.mk ["main()"; "g()"] false))
     + released_count [Push "f()"; Release 0; Push "g()"]
     = List.length ["main()"]
       + List.length (pushed_labels [Push "f()"; Release 0; Push "g()"]).
Proof.
  exact (unlocked_depth_counts_live_objects
           [Push "f()"; Release 0; Push "g()"] ["main()"]
           (Trace.mk ["main()"; "g()"] false) eq_refl).
Defined.

Lemma odd_trace_makes_the_report_undefined_witness :
  run_tests "std::exception" (Some (ret tt))
    [("basic", nested ["TestFunction"] (throw_Exception "who" "what" 33))]
    {| trace := Trace.mk [] false;
       user := {| cout := []; UnitTest_count := 0; Run_count := 0;
                  globals := tt |} |}
  = Undefined.
Proof.
  exact (odd_trace_makes_the_report_undefined unit "std::exception" "basic"
           ["TestFunction"] "who" "what" 33 (Some (ret tt)) []
           {| cout := []; UnitTest_count := 0; Run_count := 0;
              globals := tt |} eq_refl).
Defined.

Lemma execute_needs_in_and_out_witness :
  Run_execute "std::exception"
    (Run_add "basic" (ret tt) (Run_ctor "Exception" None None))
    {| trace := Trace.initial;
       user := {| cout := []; UnitTest_count := 0; Run_count := 0;
                  globals := tt |} |}
  = Undefined.
Proof.
  exact (proj1 (execute_needs_in_and_out unit "std::exception"
                  (Run_add "basic" (ret tt) (Run_ctor "Exception" None None))
                  {| trace := Trace.initial;
                     user := {| cout := []; UnitTest_count := 0;
                                Run_count := 0; globals := tt |} |})
           eq_refl).
Defined.

Lemma GWX_TRY_rethrows_on_the_stack_left_witness :
  base_catch "std::exception"
    (nested ["main()"]
       (GWX_TRY true
          (nested ["inner()"] (throw_Exception "test_who" "test_what" 66))
          {| declared_in := "mod::Thing"; variant_name := "Bad" |} 7))
    (fun _ _ _ => ret tt)
    {| trace := Trace.mk ["stale"] true; user := tt |}
  = ([CallBase (Trace.mk [] false);
      CallHandler gwers
        (Some {| _who := "mod::Thing"; _what := "Bad"; _line := 7 |}) None
        (Trace.mk ["main()"; "inner()"] true)],
     Returned tt
       {| trace := Trace.mk ["main()"; "inner()"] true; user := tt |}).
Proof.
  exact (proj1 (GWX_TRY_rethrows_on_the_stack_left unit "std::exception"
                  ["main()"]
                  (nested ["inner()"]
                     (throw_Exception "test_who" "test_what" 66))
                  {| type_name := "Gwers::Exception";
                     gwers_base := Some {| _who := "test_who";
                                           _what := "test_what";
                                           _line := 66 |};
                     std_base := None |}
                  {| declared_in := "mod::Thing"; variant_name := "Bad" |} 7
                  (fun _ _ _ => ret tt)
                  {| trace := Trace.mk ["stale"] true; user := tt |}
                  {| trace := Trace.mk ["main()"; "inner()"] true;
                     user := tt |}
                  eq_refl)).
Defined.

Lemma next_counts_one (w : World (Harness unit)) :
  Run_count (user w) = 1%Z ->
  (UnitTest_count (user w) + 1 <= INT_MAX)%Z ->
  exists w',
    next w = Returned tt w'
    /\ UnitTest_count (user w') = (UnitTest_count (user w) + 1)%Z.
Proof.
  intros Hr Hc. unfold next, bind, print, on_harness, incr_Run_count.
  cbn [trace user Run_count]. rewrite Hr.
  change (1 <? INT_MAX)%Z with true.
  cbn [set_Run_count on_harness trace user].
  unfold incr_UnitTest_count. cbn [trace user UnitTest_count].
  destruct (Z.ltb_spec (UnitTest_count (user w)) INT_MAX) as [_|Hge]; [|lia].
  eexists. split; reflexivity.
Defined.

Lemma run_tests_counts_tests_and_next_witness :
  exists w',
    run_tests "std::exception" None [("basic", next); ("extra", ret tt)]
      {| trace := Trace.initial;
         user := {| cout := []; UnitTest_count := 0; Run_count := 0;
                    globals := tt |} |}
    = Returned true w'
    /\ UnitTest_count (user w')
       = (0 + Z.of_nat 2 + fold_right Z.add 0 [1; 0])%Z.
Proof.
  refine (proj1 (run_tests_counts_tests_and_next unit "std::exception" None
                   [("basic", next); ("extra", ret tt)] [1%Z; 0%Z] _
                   {| trace := Trace.initial;
                      user := {| cout := []; UnitTest_count := 0;
                                 Run_count := 0; globals := tt |} |}) _).
  - constructor; [split; [lia|exact next_counts_one]|].
    constructor; [|constructor].
    split; [lia|]. intros w _ _. exists w. split; [reflexivity|].
    cbn [snd ret]. lia.
  - vm_compute. discriminate.
Defined.
